(** * The todo-list REST service of [backend/app.py]

    A shallow embedding of the three request handlers of the Flask
    application ([get_todos], [create_todo], [delete_todo], and the static
    [home]) together with the two module-level globals they share
    ([todos] and [next_id]), followed by the properties of the service.

    Python values are modelled as far as the handlers look at them:
    - [request.json] is an arbitrary parsed JSON document ([json]); the
      Python [None] is [JNull];
    - a Python [str] is the list of its Unicode code points;
    - a Python [int] is unbounded, hence [Z];
    - a Python exception is a [Raise] outcome of the handler;
    - [request.json] is computed by Flask before the handler looks at it:
      it gives the parsed document or raises one of werkzeug's HTTP
      exceptions ([json_attr]). *)

From Stdlib Require Import ZArith Floats.SpecFloat Strings.Ascii Strings.String.
From stdpp Require Import base option list sorting gmap strings.

Set Warnings "-register-all".
#[local] Open Scope Z_scope.

(** ** Python values *)

Module Py.

(** A [str]: the sequence of its code points. *)
Abbreviation str := (list N) (only parsing).

(** A string literal of the source (ASCII only there). *)
Definition lit (s : string) : str :=
  N_of_ascii <$> String.list_ascii_of_string s.

(** What [json.loads] produces: [None], [bool], [int], [float], [str],
    [list] and [dict] with [str] keys. *)
Inductive json : Type :=
  | JNull
  | JBool (b : bool)
  | JInt (z : Z)
  | JFloat (f : spec_float)
  | JStr (s : str)
  | JList (l : list json)
  | JDict (m : gmap str json).

(** The HTTP exceptions that evaluating [request.json] can raise: the
    request does not announce JSON (415), or its body is not a JSON
    document, an empty body included (400). *)
Inductive http_error : Set := UnsupportedMediaType | BadRequest.

Inductive exn : Set :=
  | TypeError
  | AttributeError
  | KeyError
  | HTTPException (h : http_error).

(** The outcome of evaluating an expression: a value or an exception. *)
Inductive result (A : Type) : Type :=
  | Ok (a : A)
  | Raise (e : exn).
Arguments Ok {A} a.
Arguments Raise {A} e.

Definition bind {A B} (r : result A) (k : A → result B) : result B :=
  match r with
  | Ok a => k a
  | Raise e => Raise e
  end.

(** [bool(x)]: [None], [False], zero and empty containers are falsy. *)
Definition truthy (x : json) : bool :=
  match x with
  | JNull => false
  | JBool b => b
  | JInt z => negb (z =? 0)
  | JFloat (S754_zero _) => false
  | JFloat _ => true
  | JStr s => negb (bool_decide (length s = 0%nat))
  | JList l => negb (bool_decide (length l = 0%nat))
  | JDict m => negb (bool_decide (size m = 0%nat))
  end.

(** [str.isspace] on one code point (CPython's [_PyUnicode_IsWhitespace]). *)
Definition isspace (c : N) : bool :=
  (((0x09 <=? c) && (c <=? 0x0D)) || ((0x1C <=? c) && (c <=? 0x20))
   || (c =? 0x85) || (c =? 0xA0) || (c =? 0x1680)
   || ((0x2000 <=? c) && (c <=? 0x200A))
   || (c =? 0x2028) || (c =? 0x2029) || (c =? 0x202F) || (c =? 0x205F)
   || (c =? 0x3000))%N.

Fixpoint lstrip (s : str) : str :=
  match s with
  | [] => []
  | c :: s' => if isspace c then lstrip s' else s
  end.

Definition rstrip (s : str) : str := reverse (lstrip (reverse s)).

(** [s.strip()] with no argument. *)
Definition strip (s : str) : str := rstrip (lstrip s).

Fixpoint startswith (s p : str) : bool :=
  match p, s with
  | [], _ => true
  | _ :: _, [] => false
  | a :: p', b :: s' => (a =? b)%N && startswith s' p'
  end.

(** [p in s] on two strings: [p] occurs in [s] as a substring. *)
Fixpoint occurs (p s : str) : bool :=
  startswith s p ||
  match s with
  | [] => false
  | _ :: s' => occurs p s'
  end.

(** [x == k] where [k] is a [str]: only an equal [str] compares equal. *)
Definition eq_str (k : str) (x : json) : bool :=
  match x with
  | JStr s => bool_decide (s = k)
  | _ => false
  end.

(** [k in c] with [k] a [str]: key membership on a [dict], element
    membership on a [list], substring on a [str]; the other JSON types
    are not containers and raise [TypeError]. *)
Definition contains (k : str) (c : json) : result bool :=
  match c with
  | JDict m => Ok (bool_decide (is_Some (m !! k)))
  | JList l => Ok (existsb (eq_str k) l)
  | JStr s => Ok (occurs k s)
  | JNull | JBool _ | JInt _ | JFloat _ => Raise TypeError
  end.

(** [c[k]] with [k] a [str]: only a [dict] can be indexed by a [str]. *)
Definition getitem (c : json) (k : str) : result json :=
  match c with
  | JDict m =>
      match m !! k with
      | Some v => Ok v
      | None => Raise KeyError
      end
  | _ => Raise TypeError
  end.

(** [v.strip()]: only [str] has the method. *)
Definition call_strip (v : json) : result str :=
  match v with
  | JStr s => Ok (strip s)
  | _ => Raise AttributeError
  end.

End Py.
Import Py.

(** ** The globals and the handler monad *)

(** An element of [todos]: the dict [{'id': ..., 'text': ...}] built by
    [create_todo], the only place that adds one. *)
Record todo : Type := Todo { id : Z; text : Py.str }.

(** The module-level globals [todos] and [next_id]. *)
Record state : Type := State { todos : list todo; next_id : Z }.

(** [todos = []], [next_id = 1]. *)
Definition initial : state := {| todos := []; next_id := 1 |}.

(** The body of a response: [jsonify(obj)] or a literal string. *)
Inductive body : Type :=
  | jsonify (obj : json)
  | raw (s : Py.str).

(** What a view function returns: a body and a status code. *)
Record response : Type := Response { resp_body : body; status : Z }.

(** A handler reads and writes the globals and may raise. *)
Definition M (A : Type) : Type := state → result A * state.

Definition ret {A} (a : A) : M A := λ st, (Ok a, st).

Definition bindM {A B} (m : M A) (k : A → M B) : M B :=
  λ st, match m st with
        | (Ok a, st') => k a st'
        | (Raise e, st') => (Raise e, st')
        end.

(** An expression that does not touch the globals. *)
Definition eval {A} (r : result A) : M A := λ st, (r, st).

Definition read_todos : M (list todo) := λ st, (Ok (todos st), st).
Definition read_next_id : M Z := λ st, (Ok (next_id st), st).
Definition write_todos (l : list todo) : M unit :=
  λ st, (Ok tt, {| todos := l; next_id := next_id st |}).
Definition write_next_id (n : Z) : M unit :=
  λ st, (Ok tt, {| todos := todos st; next_id := n |}).

Declare Scope handler_scope.
Delimit Scope handler_scope with handler.
Notation "x <- m ;; k" := (bindM m (λ x, k))
  (at level 100, m at next level, right associativity) : handler_scope.
Notation "m ;; k" := (bindM m (λ _, k))
  (at level 100, right associativity) : handler_scope.

(** The dict stored for a todo, as [jsonify] sees it. *)
Definition todo_dict (t : todo) : json :=
  JDict {[ lit "id" := JInt (id t); lit "text" := JStr (text t) ]}.

Definition error_dict (msg : string) : json :=
  JDict {[ lit "error" := JStr (lit msg) ]}.

(** ** The handlers *)

(** [GET /api/todos] *)
Definition get_todos : M response :=
  (ts <- read_todos ;;
   ret (Response (jsonify (JList (todo_dict <$> ts))) 200))%handler.

(** [POST /api/todos], once [request.json] has given [data]: the body of
    the view from its first test on ([create_todo_view] below puts the
    evaluation of [request.json] in front). *)
Definition create_todo (data : json) : M response :=
  (missing <- eval (if negb (truthy data) then Ok true
                    else bind (contains (lit "text") data) (λ b, Ok (negb b))) ;;
   if missing : bool then
     ret (Response (jsonify (error_dict "Missing text field")) 400)
   else
     stripped <- eval (bind (getitem data (lit "text")) call_strip) ;;
     if negb (truthy (JStr stripped)) then
       ret (Response (jsonify (error_dict "Text cannot be empty")) 400)
     else
       n <- read_next_id ;;
       stripped' <- eval (bind (getitem data (lit "text")) call_strip) ;;
       let new_todo := {| id := n; text := stripped' |} in
       ts <- read_todos ;;
       write_todos (ts ++ [new_todo]) ;;
       n' <- read_next_id ;;
       write_next_id (n' + 1) ;;
       ret (Response (jsonify (todo_dict new_todo)) 201))%handler.

(** What evaluating [request.json] gives on a POST: the parsed document,
    or an HTTP exception when there is nothing to parse. *)
Inductive json_attr : Type :=
  | Parsed (data : json)
  | Rejected (h : http_error).

Definition request_json (a : json_attr) : result json :=
  match a with
  | Parsed data => Ok data
  | Rejected h => Raise (HTTPException h)
  end.

(** The whole view function of [POST /api/todos]: [data = request.json],
    then the rest of the body on [data]. *)
Definition create_todo_view (a : json_attr) : M response :=
  (data <- eval (request_json a) ;; create_todo data)%handler.

(** [DELETE /api/todos/<int:todo_id>] *)
Definition delete_todo (todo_id : Z) : M response :=
  (ts <- read_todos ;;
   match head (filter (λ t, id t = todo_id) ts) with
   | None => ret (Response (jsonify (error_dict "Todo not found")) 404)
   | Some _ =>
       ts' <- read_todos ;;
       write_todos (filter (λ t, id t ≠ todo_id) ts') ;;
       ret (Response (raw (lit "")) 204)
   end)%handler.

(** [GET /]: no status given, hence 200. *)
Definition home : M response :=
  ret (Response
         (jsonify (JDict
            {[ lit "message" := JStr (lit "Todo List REST API");
               lit "endpoints" := JDict
                 {[ lit "GET /api/todos" := JStr (lit "Get all todos");
                    lit "POST /api/todos" := JStr (lit "Create a new todo");
                    lit "DELETE /api/todos/<id>" := JStr (lit "Delete a todo") ]} ]}))
         200).

(** ** Sequences of requests *)

(** A POST is [POST_todos data] when [request.json] gives [data] and
    [POST_todos_rejected h] when evaluating it raises [h]. *)
Inductive request : Type :=
  | GET_todos
  | POST_todos (data : json)
  | DELETE_todo (todo_id : Z)
  | GET_root
  | POST_todos_rejected (h : http_error).

Definition handle (r : request) : M response :=
  match r with
  | GET_todos => get_todos
  | POST_todos data => create_todo data
  | DELETE_todo todo_id => delete_todo todo_id
  | GET_root => home
  | POST_todos_rejected h => create_todo_view (Rejected h)
  end.

(** The server handles the requests one after the other; a handler that
    raises leaves the globals as they were at the exception, and the next
    request is served from there.  The log pairs each request with its
    outcome. *)
Fixpoint serve (rs : list request) (st : state)
  : list (request * result response) * state :=
  match rs with
  | [] => ([], st)
  | r :: rs' =>
      let '(o, st') := handle r st in
      let '(log, st'') := serve rs' st' in
      ((r, o) :: log, st'')
  end.

(** A state of the globals that some sequence of requests leads to. *)
Definition reachable (st : state) : Prop :=
  ∃ rs, (serve rs initial).2 = st.

(** The id in the body of a 201 answer to a Create. *)
Definition created_id (e : request * result response) : option Z :=
  match e with
  | (POST_todos _, Ok r) =>
      if bool_decide (status r = 201) then
        match resp_body r with
        | jsonify (JDict m) =>
            match m !! lit "id" with
            | Some (JInt i) => Some i
            | _ => None
            end
        | _ => None
        end
      else None
  | _ => None
  end.

(** The ids handed out along a log, oldest first. *)
Definition issued (log : list (request * result response)) : list Z :=
  omap created_id log.

(** The item a successful Create builds from the stripped text. *)
Definition created (st : state) (s : Py.str) : todo :=
  {| id := next_id st; text := s |}.

(** Items are ordered by id. *)
Definition id_lt (a b : todo) : Prop := id a < id b.

(** What every sequence of requests maintains of the globals. *)
Record inv (st : state) : Prop := Inv {
  inv_sorted : StronglySorted id_lt (todos st);
  inv_bound : Forall (λ t, 1 ≤ id t < next_id st) (todos st);
  inv_text : Forall (λ t, text t ≠ []) (todos st);
  inv_next : 1 ≤ next_id st
}.

(** A string with no whitespace at either end. *)
Definition trimmed (s : Py.str) : Prop :=
  (∀ c, head s = Some c → isspace c = false)
  ∧ (∀ c, last s = Some c → isspace c = false).

(** The requests that only read the globals. *)
Definition read_only (r : request) : bool :=
  match r with
  | GET_todos | GET_root => true
  | POST_todos _ | DELETE_todo _ | POST_todos_rejected _ => false
  end.

(** The id of a Delete that was answered 204. *)
Definition removed_id (e : request * result response) : option Z :=
  match e with
  | (DELETE_todo todo_id, Ok r) =>
      if bool_decide (status r = 204) then Some todo_id else None
  | _ => None
  end.

(** The ids deleted along a log, oldest first. *)
Definition removed (log : list (request * result response)) : list Z :=
  omap removed_id log.


(** The answer of [create_todo] when its first test succeeds. *)
Definition missing_400 : result response :=
  Ok (Response (jsonify (error_dict "Missing text field")) 400).

(** ** Facts about the Python operations *)

Section PyFacts.

Lemma lstrip_nil_iff (s : Py.str) :
  lstrip s = [] ↔ forallb isspace s = true.
Proof.
  induction s as [|c s IH]; simpl; [done|].
  destruct (isspace c); simpl; [exact IH|].
  split; intros; discriminate.
Qed.

Lemma forallb_reverse {A} (f : A → bool) (l : list A) :
  forallb f (reverse l) = forallb f l.
Proof.
  induction l as [|x l IH]; [done|].
  rewrite reverse_cons, forallb_app, IH. simpl.
  rewrite andb_true_r. apply andb_comm.
Qed.

(** Stripping leaves nothing exactly when the string is all whitespace. *)
Lemma strip_nil_iff (s : Py.str) :
  strip s = [] ↔ forallb isspace s = true.
Proof.
  unfold strip, rstrip. split.
  - intros H. apply (f_equal reverse) in H.
    rewrite reverse_involutive, reverse_nil in H.
    apply lstrip_nil_iff in H. rewrite forallb_reverse in H.
    destruct (lstrip s) eqn:E; [by apply lstrip_nil_iff|].
    exfalso. revert E H. clear. induction s as [|c s IH]; simpl; [done|].
    destruct (isspace c) eqn:Ec; [done|].
    intros [= <- <-]. simpl. by rewrite Ec.
  - intros H. apply lstrip_nil_iff in H. by rewrite H.
Qed.

Lemma truthy_str (s : Py.str) : truthy (JStr s) = true ↔ s ≠ [].
Proof.
  simpl. destruct s; simpl; [|done].
  split; [discriminate | congruence].
Qed.

Lemma truthy_dict_lookup (m : gmap (list N) json) k v :
  m !! k = Some v → truthy (JDict m) = true.
Proof.
  intros H. simpl. rewrite bool_decide_eq_false_2; [done|].
  intros ->%map_size_empty_iff. by rewrite lookup_empty in H.
Qed.

Lemma todo_dict_id (t : todo) :
  ∃ m, todo_dict t = JDict m ∧ m !! lit "id" = Some (JInt (id t)).
Proof.
  eexists. split; [reflexivity|]. apply lookup_insert_eq.
Qed.

End PyFacts.

(** ** One Create request *)

Section Create.

(** [create_todo] on a dict that has the key ['text']. *)
Lemma create_todo_dict m v st :
  m !! lit "text" = Some v →
  create_todo (JDict m) st =
    match call_strip v with
    | Raise e => (Raise e, st)
    | Ok s =>
        if negb (truthy (JStr s)) then
          (Ok (Response (jsonify (error_dict "Text cannot be empty")) 400), st)
        else
          (Ok (Response (jsonify (todo_dict (created st s))) 201),
           {| todos := todos st ++ [created st s]; next_id := next_id st + 1 |})
    end.
Proof.
  intros Hv. unfold create_todo, bindM, eval.
  rewrite (truthy_dict_lookup _ _ _ Hv). cbn [negb contains bind].
  rewrite bool_decide_eq_true_2 by (by eexists). cbn [negb getitem].
  rewrite Hv. cbn [bind].
  destruct (call_strip v) as [s|e]; [|done].
  destruct (negb (truthy (JStr s))); done.
Qed.


(** Whatever the body, a Create either touches nothing (and then any
    response it gives is a 400) or stores a new item and answers 201. *)
Lemma create_todo_cases data st o st' :
  create_todo data st = (o, st') →
  (st' = st ∧ ∀ r, o = Ok r → status r = 400)
  ∨ (∃ s, s ≠ []
      ∧ o = Ok (Response (jsonify (todo_dict (created st s))) 201)
      ∧ st' = {| todos := todos st ++ [created st s];
                 next_id := next_id st + 1 |}).
Proof.
  unfold create_todo, bindM, eval, ret, read_next_id, read_todos,
    write_todos, write_next_id.
  destruct (negb (truthy data)).
  { intros [= <- <-]. left. split; [done|]. by intros r [= <-]. }
  destruct (contains _ data) as [[|]|]; cbn [bind negb];
    [| by intros [= <- <-]; left; split; [|intros r [= <-]]
     | by intros [= <- <-]; left ].
  destruct (bind _ _) as [s|]; [| by intros [= <- <-]; left].
  destruct (negb (truthy (JStr s))) eqn:E.
  { intros [= <- <-]. left. split; [done|]. by intros r [= <-]. }
  intros [= <- <-]. right. exists s. split; [|done].
  apply truthy_str. by apply negb_false_iff.
Qed.

End Create.

(** C1: a Create whose body is an object with a string ['text'] that is
    not empty once stripped answers 201 with the new item
    [{id: next_id, text: stripped}], appends that item to the end of
    [todos] and adds exactly 1 to [next_id]. *)
Theorem create_todo_success m s st :
  m !! lit "text" = Some (JStr s) →
  strip s ≠ [] →
  let new_todo := {| id := next_id st; text := strip s |} in
  create_todo (JDict m) st =
    (Ok (Response (jsonify (todo_dict new_todo)) 201),
     {| todos := todos st ++ [new_todo]; next_id := next_id st + 1 |}).
Proof.
  intros Hv Hs new_todo. rewrite (create_todo_dict _ _ _ Hv). cbn [call_strip].
  apply truthy_str in Hs. by rewrite Hs.
Qed.

Lemma create_todo_success_witness :
  create_todo (JDict {[ lit "text" := JStr (lit "  Buy milk ") ]}) initial =
    (Ok (Response (jsonify (todo_dict (Todo 1 (lit "Buy milk")))) 201),
     {| todos := [Todo 1 (lit "Buy milk")]; next_id := 2 |}).
Proof.
  apply (create_todo_success {[ lit "text" := JStr (lit "  Buy milk ") ]}
           (lit "  Buy milk ") initial); [reflexivity | vm_compute; discriminate].
Defined.




(** When [request.json] itself raises (no JSON announced, or nothing to
    parse), the view raises that exception and the test for the ['text']
    field is not reached; when it gives a document the view is
    [create_todo] on it. *)
Lemma create_todo_view_rejected h st :
  create_todo_view (Rejected h) st = (Raise (HTTPException h), st).
Proof. reflexivity. Qed.

Lemma create_todo_view_parsed data st :
  create_todo_view (Parsed data) st = create_todo data st.
Proof. reflexivity. Qed.

(** C5: a Create whose body has a string ['text'] that is empty once
    stripped (for instance three blanks) answers 400 with
    [{error: "Text cannot be empty"}]. *)
Theorem create_todo_blank_text m s st :
  m !! lit "text" = Some (JStr s) →
  strip s = [] →
  create_todo (JDict m) st =
    (Ok (Response (jsonify (error_dict "Text cannot be empty")) 400), st).
Proof.
  intros Hv Hs. rewrite (create_todo_dict _ _ _ Hv). cbn [call_strip].
  by rewrite Hs.
Qed.

Lemma create_todo_blank_text_witness :
  create_todo (JDict {[ lit "text" := JStr (lit "   ") ]}) initial =
    (Ok (Response (jsonify (error_dict "Text cannot be empty")) 400), initial).
Proof.
  apply (create_todo_blank_text _ (lit "   ")); reflexivity.
Defined.

(** C6: a Create that answers 400 leaves [todos] and [next_id] exactly as
    they were. *)
Theorem create_todo_400_unchanged data st r st' :
  create_todo data st = (Ok r, st') →
  status r = 400 →
  st' = st.
Proof.
  intros H Hr. apply create_todo_cases in H as [[-> _] | (s & _ & [= ->] & _)].
  - done.
  - discriminate Hr.
Qed.

Lemma create_todo_400_unchanged_witness :
  let st := {| todos := [Todo 1 (lit "a")]; next_id := 2 |} in
  ∃ r st',
    create_todo (JDict {[ lit "text" := JStr (lit " ") ]}) st = (Ok r, st')
    ∧ status r = 400 ∧ st' = st.
Proof.
  intros st.
  exists (Response (jsonify (error_dict "Text cannot be empty")) 400), st.
  split; [reflexivity|]. split; [reflexivity|].
  apply (create_todo_400_unchanged
           (JDict {[ lit "text" := JStr (lit " ") ]}) st
           (Response (jsonify (error_dict "Text cannot be empty")) 400));
    reflexivity.
Defined.

(** C10: [create_todo] calls [.strip()] on the value of ['text'] without
    looking at its type.  On an object whose ['text'] is not a string the
    handler raises [AttributeError] at that call: no response is built
    (neither of the two 400 answers), and the globals are untouched.  The
    handler returns a response on such a body exactly when the value is a
    string. *)
Theorem create_todo_text_not_str m v st :
  m !! lit "text" = Some v →
  ((∀ s, v ≠ JStr s) → create_todo (JDict m) st = (Raise AttributeError, st))
  ∧ ((∃ r st', create_todo (JDict m) st = (Ok r, st')) ↔ ∃ s, v = JStr s).
Proof.
  intros Hv. rewrite (create_todo_dict _ _ _ Hv). split.
  - intros Hns. destruct v; try done. by destruct (Hns s).
  - split.
    + intros (r & st' & H). destruct v; try discriminate H. by eexists.
    + intros [s ->]. cbn [call_strip].
      destruct (negb (truthy (JStr (strip s)))); by do 2 eexists.
Qed.

Lemma create_todo_text_not_str_witness :
  create_todo (JDict {[ lit "text" := JInt 42 ]}) initial
    = (Raise AttributeError, initial)
  ∧ create_todo (JDict {[ lit "text" := JList [JStr (lit "a")] ]}) initial
    = (Raise AttributeError, initial).
Proof.
  split.
  - apply (create_todo_text_not_str {[ lit "text" := JInt 42 ]} (JInt 42) initial);
      [reflexivity | discriminate].
  - apply (create_todo_text_not_str
             {[ lit "text" := JList [JStr (lit "a")] ]}
             (JList [JStr (lit "a")]) initial);
      [reflexivity | discriminate].
Defined.

(** ** One Delete request *)

Section Delete.

Implicit Types (l : list todo) (t : todo) (st : state).

Lemma head_filter_None {A} (P : A → Prop) `{!∀ x, Decision (P x)} (k : list A) :
  head (filter P k) = None ↔ Forall (λ x, ¬ P x) k.
Proof.
  rewrite head_None. split.
  - intros Hnil. apply Forall_forall. intros x Hx HP.
    assert (x ∈ filter P k) as Hin by (by apply list_elem_of_filter).
    rewrite Hnil in Hin. by apply not_elem_of_nil in Hin.
  - intros Hall. induction Hall as [|x k Hx _ IH]; [done|].
    by rewrite filter_cons_False.
Qed.

Lemma filter_all {A} (P : A → Prop) `{!∀ x, Decision (P x)} (k : list A) :
  Forall P k → filter P k = k.
Proof.
  induction 1 as [|x k Hx _ IH]; [done|].
  by rewrite filter_cons_True, IH.
Qed.

(** No stored item has the id: 404, nothing written. *)
Lemma delete_todo_absent todo_id st :
  Forall (λ t, id t ≠ todo_id) (todos st) →
  delete_todo todo_id st =
    (Ok (Response (jsonify (error_dict "Todo not found")) 404), st).
Proof.
  intros H. unfold delete_todo, bindM, read_todos.
  assert (head (filter (λ t, id t = todo_id) (todos st)) = None) as ->; [|done].
  apply head_filter_None. eapply Forall_impl; [exact H|]. auto.
Qed.

(** Some stored item has the id: 204, [todos] rebound to the filtered list. *)
Lemma delete_todo_present todo_id st t :
  t ∈ todos st → id t = todo_id →
  delete_todo todo_id st =
    (Ok (Response (raw (lit "")) 204),
     {| todos := filter (λ t, id t ≠ todo_id) (todos st);
        next_id := next_id st |}).
Proof.
  intros Hin Hid. unfold delete_todo, bindM, read_todos.
  destruct (head (filter (λ t, id t = todo_id) (todos st))) eqn:E; [done|].
  apply head_filter_None in E. rewrite Forall_forall in E.
  by destruct (E t Hin).
Qed.

Lemma delete_todo_cases todo_id st o st' :
  delete_todo todo_id st = (o, st') →
  (Forall (λ t, id t ≠ todo_id) (todos st)
   ∧ o = Ok (Response (jsonify (error_dict "Todo not found")) 404) ∧ st' = st)
  ∨ ((∃ t, t ∈ todos st ∧ id t = todo_id)
     ∧ o = Ok (Response (raw (lit "")) 204)
     ∧ st' = {| todos := filter (λ t, id t ≠ todo_id) (todos st);
                next_id := next_id st |}).
Proof.
  destruct (decide (Forall (λ t, id t ≠ todo_id) (todos st))) as [H|H].
  - rewrite (delete_todo_absent _ _ H). intros [= <- <-]. by left.
  - apply not_Forall_Exists in H; [|apply _].
    apply Exists_exists in H as (t & Hin & Hid).
    assert (id t = todo_id) as Hid' by (by destruct (decide (id t = todo_id))).
    rewrite (delete_todo_present _ _ _ Hin Hid'). intros [= <- <-].
    right. eauto.
Qed.

(** In a list sorted by id the filter takes out one element. *)
Lemma filter_sorted_split l t :
  StronglySorted id_lt l → t ∈ l →
  ∃ l1 l2, l = l1 ++ t :: l2
    ∧ filter (λ t', id t' ≠ id t) l = l1 ++ l2
    ∧ Forall (λ t', id t' ≠ id t) (l1 ++ l2).
Proof.
  intros Hs Hin. apply list_elem_of_split in Hin as (l1 & l2 & ->).
  exists l1, l2. split; [done|].
  assert (Forall (λ t', id t' ≠ id t) l1) as H1.
  { apply Forall_forall. intros x Hx.
    assert (id_lt x t) as Hlt; [|unfold id_lt in Hlt; lia].
    eapply (StronglySorted_app_1_elem_of id_lt l1 (t :: l2)); [done..|].
    apply list_elem_of_here. }
  assert (Forall (λ t', id t' ≠ id t) l2) as H2.
  { apply StronglySorted_app_1_r, StronglySorted_inv in Hs as [_ Hs].
    eapply Forall_impl; [exact Hs|]. unfold id_lt. intros; lia. }
  split; [|by apply Forall_app].
  rewrite filter_app, filter_cons_False by (intros ?; done).
  by rewrite !filter_all.
Qed.

Lemma Forall_sublist {A} (P : A → Prop) (k1 k2 : list A) :
  k1 `sublist_of` k2 → Forall P k2 → Forall P k1.
Proof.
  rewrite !Forall_forall. intros Hsub HP x Hx.
  apply HP. by eapply elem_of_sublist.
Qed.

Lemma StronglySorted_sublist {A} (R : relation A) (k1 k2 : list A) :
  k1 `sublist_of` k2 → StronglySorted R k2 → StronglySorted R k1.
Proof.
  induction 1 as [|x k1 k2 Hsub IH|x k1 k2 Hsub IH]; [done|..].
  - intros [HF Hs]%StronglySorted_cons. apply StronglySorted_cons.
    split; [|auto]. by eapply Forall_sublist.
  - intros [_ Hs]%StronglySorted_cons. auto.
Qed.

End Delete.

(** The filter keeps every sublist that avoids the rejected elements. *)
Lemma sublist_filter_max {A} (P : A → Prop) `{!∀ x, Decision (P x)}
    (k1 k2 : list A) :
  k1 `sublist_of` k2 → Forall P k1 → k1 `sublist_of` filter P k2.
Proof.
  induction 1 as [|x k1 k2 Hsub IH|x k1 k2 Hsub IH]; [done|..].
  - intros [Hx Hk]%Forall_cons. rewrite filter_cons_True by done.
    constructor. auto.
  - intros Hk. destruct (decide (P x)).
    + rewrite filter_cons_True by done. constructor. auto.
    + rewrite filter_cons_False by done. auto.
Qed.

(** ** Sequences of requests: what is maintained *)

Section Serve.

Implicit Types (st : state) (r : request) (rs : list request).

Lemma inv_initial : inv initial.
Proof. split; simpl; [constructor | done | done | lia]. Qed.

Lemma inv_create st s : s ≠ [] → inv st →
  inv {| todos := todos st ++ [created st s]; next_id := next_id st + 1 |}.
Proof.
  intros Hs [Hsorted Hbound Htext Hnext]. split; simpl.
  - apply StronglySorted_app_2; [|done|by repeat constructor].
    intros x1 x2 Hx1 ->%list_elem_of_singleton.
    rewrite Forall_forall in Hbound. specialize (Hbound _ Hx1).
    unfold id_lt, created. simpl. lia.
  - apply Forall_app. split.
    + eapply Forall_impl; [exact Hbound|]. simpl. intros; lia.
    + repeat constructor; simpl; lia.
  - apply Forall_app. split; [done|]. by repeat constructor.
  - lia.
Qed.

Lemma inv_delete st todo_id : inv st →
  inv {| todos := filter (λ t, id t ≠ todo_id) (todos st);
         next_id := next_id st |}.
Proof.
  intros [Hsorted Hbound Htext Hnext].
  pose proof (sublist_filter (λ t, id t ≠ todo_id) (todos st)) as Hsub.
  split; simpl; [|..|done].
  - by eapply StronglySorted_sublist.
  - by eapply Forall_sublist.
  - by eapply Forall_sublist.
Qed.

Lemma handle_inv r st o st' : inv st → handle r st = (o, st') → inv st'.
Proof.
  intros Hinv. destruct r as [|data|todo_id| |h]; simpl.
  - by intros [= _ <-].
  - intros [[-> _] | (s & Hs & _ & ->)]%create_todo_cases; [done|].
    by apply inv_create.
  - intros [(_ & _ & ->) | (_ & _ & ->)]%delete_todo_cases; [done|].
    by apply inv_delete.
  - by intros [= _ <-].
  - by intros [= _ <-].
Qed.

Lemma serve_inv rs st log st' : inv st → serve rs st = (log, st') → inv st'.
Proof.
  revert st log. induction rs as [|r rs IH]; intros st log Hinv; simpl.
  - by intros [= _ <-].
  - destruct (handle r st) as [o st1] eqn:Hh.
    destruct (serve rs st1) as [log1 st2] eqn:Hs.
    intros [= _ <-]. eapply IH; [|done]. by eapply handle_inv.
Qed.

Lemma reachable_inv st : reachable st → inv st.
Proof.
  intros [rs <-]. destruct (serve rs initial) as [log st'] eqn:E.
  eapply serve_inv; [apply inv_initial | done].
Qed.

(** One request hands out [next_id] and bumps it, or leaves it alone. *)
Lemma handle_issue r st o st' :
  handle r st = (o, st') →
  match created_id (r, o) with
  | Some i => i = next_id st ∧ next_id st' = next_id st + 1
  | None => next_id st' = next_id st
  end.
Proof.
  destruct r as [|data|todo_id| |h]; simpl.
  - by intros [= _ <-].
  - intros [[-> H400] | (s & Hs & -> & ->)]%create_todo_cases.
    + destruct o as [r|]; [|done].
      rewrite bool_decide_eq_false_2; [done|]. rewrite (H400 r); done.
    + cbn [created_id status resp_body].
      rewrite bool_decide_eq_true_2 by done.
      destruct (todo_dict_id (created st s)) as (m & -> & ->). done.
  - by intros [(_ & _ & ->) | (_ & _ & ->)]%delete_todo_cases.
  - by intros [= _ <-].
  - by intros [= _ <-].
Qed.

Lemma serve_issued rs st log st' :
  serve rs st = (log, st') →
  next_id st ≤ next_id st'
  ∧ Forall (λ i, next_id st ≤ i < next_id st') (issued log)
  ∧ StronglySorted Z.lt (issued log).
Proof.
  revert st log. induction rs as [|r rs IH]; intros st log; simpl.
  - intros [= <- <-]. repeat split; [lia | constructor | constructor].
  - destruct (handle r st) as [o st1] eqn:Hh.
    destruct (serve rs st1) as [log1 st2] eqn:Hs.
    intros [= <- <-]. apply handle_issue in Hh.
    destruct (IH _ _ Hs) as (Hle & Hall & Hsorted).
    unfold issued. cbn [omap list_omap]. fold (issued log1).
    destruct (created_id (r, o)) as [i|].
    + destruct Hh as [-> Hn]. repeat split; [lia|..].
      * constructor; [lia|].
        eapply Forall_impl; [exact Hall|]. simpl. intros; lia.
      * constructor; [done|].
        eapply Forall_impl; [exact Hall|]. simpl. intros; lia.
    + rewrite Hh in *. done.
Qed.

Lemma StronglySorted_lt_NoDup (l : list Z) : StronglySorted Z.lt l → NoDup l.
Proof.
  induction 1 as [|x l _ IH Hx]; constructor; [|done].
  intros Hin. rewrite Forall_forall in Hx. specialize (Hx _ Hin). lia.
Qed.

End Serve.

(** ** The service *)

(** C2: along every sequence of requests served from the initial state,
    the ids answered by successful Creates are strictly increasing, hence
    pairwise distinct, whatever Deletes happen in between; [next_id] ends
    above each of them and above the id of every stored item. *)
Theorem issued_ids_increasing (rs : list request) :
  StronglySorted Z.lt (issued (serve rs initial).1)
  ∧ NoDup (issued (serve rs initial).1)
  ∧ Forall (λ i, 1 ≤ i < next_id (serve rs initial).2)
      (issued (serve rs initial).1)
  ∧ Forall (λ t, id t < next_id (serve rs initial).2)
      (todos (serve rs initial).2).
Proof.
  destruct (serve rs initial) as [log st] eqn:E. simpl.
  destruct (serve_issued _ _ _ _ E) as (_ & Hall & Hsorted).
  pose proof (serve_inv _ _ _ _ inv_initial E) as [_ Hbound _ _].
  repeat split; [done | by apply StronglySorted_lt_NoDup | done |].
  eapply Forall_impl; [exact Hbound|]. simpl. intros; lia.
Qed.

(** C3: in a state reached from the initial one, a Delete whose id is the
    id of a stored item answers 204 with an empty body, takes exactly that
    one item out of [todos] (the list is one shorter and no remaining item
    has the id) and leaves [next_id] alone. *)
Theorem delete_todo_removes_one st todo_id :
  reachable st →
  (∃ t, t ∈ todos st ∧ id t = todo_id) →
  ∃ l1 t l2,
    todos st = l1 ++ t :: l2
    ∧ id t = todo_id
    ∧ Forall (λ t', id t' ≠ todo_id) (l1 ++ l2)
    ∧ delete_todo todo_id st =
        (Ok (Response (raw (lit "")) 204),
         {| todos := l1 ++ l2; next_id := next_id st |})
    ∧ (length (l1 ++ l2) + 1 = length (todos st))%nat.
Proof.
  intros [Hsorted _ _ _]%reachable_inv (t & Hin & <-).
  destruct (filter_sorted_split _ _ Hsorted Hin) as (l1 & l2 & Hl & Hf & Hne).
  exists l1, t, l2. repeat split; [done | done | |].
  - rewrite (delete_todo_present _ _ _ Hin eq_refl). by rewrite Hf.
  - rewrite Hl, !length_app. simpl. lia.
Qed.

Lemma delete_todo_removes_one_witness :
  ∃ l1 t l2,
    [Todo 1 (lit "a"); Todo 2 (lit "b"); Todo 3 (lit "c")] = l1 ++ t :: l2
    ∧ id t = 2
    ∧ Forall (λ t', id t' ≠ 2) (l1 ++ l2)
    ∧ delete_todo 2
        {| todos := [Todo 1 (lit "a"); Todo 2 (lit "b"); Todo 3 (lit "c")];
           next_id := 4 |} =
        (Ok (Response (raw (lit "")) 204),
         {| todos := l1 ++ l2; next_id := 4 |})
    ∧ (length (l1 ++ l2) + 1 = 3)%nat.
Proof.
  apply (delete_todo_removes_one
           {| todos := [Todo 1 (lit "a"); Todo 2 (lit "b"); Todo 3 (lit "c")];
              next_id := 4 |} 2).
  - exists [POST_todos (JDict {[ lit "text" := JStr (lit "a") ]});
            POST_todos (JDict {[ lit "text" := JStr (lit "b") ]});
            POST_todos (JDict {[ lit "text" := JStr (lit "c") ]})].
    reflexivity.
  - exists (Todo 2 (lit "b")). split; [|reflexivity].
    apply list_elem_of_further, list_elem_of_here.
Defined.

(** C7: a Delete whose id is the id of no stored item answers 404 with
    [{error: "Todo not found"}] and leaves [todos] and [next_id] as they
    were. *)
Theorem delete_todo_not_found todo_id st :
  (∀ t, t ∈ todos st → id t ≠ todo_id) →
  delete_todo todo_id st =
    (Ok (Response (jsonify (error_dict "Todo not found")) 404), st).
Proof.
  intros H. apply delete_todo_absent. by apply Forall_forall.
Qed.

Lemma delete_todo_not_found_witness :
  delete_todo 7 {| todos := [Todo 1 (lit "a"); Todo 3 (lit "c")]; next_id := 4 |} =
    (Ok (Response (jsonify (error_dict "Todo not found")) 404),
     {| todos := [Todo 1 (lit "a"); Todo 3 (lit "c")]; next_id := 4 |}).
Proof.
  apply (delete_todo_not_found 7
           {| todos := [Todo 1 (lit "a"); Todo 3 (lit "c")]; next_id := 4 |}).
  intros t Ht. simpl in Ht.
  apply elem_of_cons in Ht as [-> | Ht]; [discriminate|].
  apply elem_of_cons in Ht as [-> | Ht]; [discriminate|].
  by apply not_elem_of_nil in Ht.
Defined.

(** C8: in every state List answers 200 with the items of [todos], each
    as its [{id, text}] object, in the order of the list, and writes
    nothing; right after a Create that answered 201 the last element of
    what List answers is the item that Create returned. *)
Theorem get_todos_lists st :
  get_todos st =
    (Ok (Response (jsonify (JList (todo_dict <$> todos st))) 200), st)
  ∧ ∀ data r st',
      create_todo data st = (Ok r, st') → status r = 201 →
      ∃ item,
        resp_body r = jsonify item
        ∧ get_todos st' =
            (Ok (Response
                   (jsonify (JList ((todo_dict <$> todos st) ++ [item]))) 200),
             st').
Proof.
  split; [done|]. intros data r st' H Hr.
  apply create_todo_cases in H as [[_ H400] | (s & _ & [= ->] & ->)].
  - rewrite (H400 r eq_refl) in Hr. discriminate.
  - eexists. split; [done|].
    unfold get_todos, bindM, read_todos, ret. simpl. by rewrite fmap_app.
Qed.

Lemma get_todos_lists_witness :
  ∃ item,
    jsonify (todo_dict (Todo 2 (lit "b"))) = jsonify item
    ∧ get_todos {| todos := [Todo 1 (lit "a"); Todo 2 (lit "b")]; next_id := 3 |} =
        (Ok (Response
               (jsonify (JList ((todo_dict <$> [Todo 1 (lit "a")]) ++ [item]))) 200),
         {| todos := [Todo 1 (lit "a"); Todo 2 (lit "b")]; next_id := 3 |}).
Proof.
  apply (proj2 (get_todos_lists {| todos := [Todo 1 (lit "a")]; next_id := 2 |})
           (JDict {[ lit "text" := JStr (lit " b") ]})
           (Response (jsonify (todo_dict (Todo 2 (lit "b")))) 201)
           {| todos := [Todo 1 (lit "a"); Todo 2 (lit "b")]; next_id := 3 |});
    reflexivity.
Defined.

(** C9: a Delete that answers 204 keeps every stored item whose id is not
    the deleted one, unchanged and in the same relative order: the new
    [todos] is a sublist of the old one, holds exactly the old items with
    another id, and every sublist of the old list that avoids the id is a
    sublist of it. *)
Theorem delete_todo_keeps_others todo_id st r st' :
  delete_todo todo_id st = (Ok r, st') →
  status r = 204 →
  todos st' `sublist_of` todos st
  ∧ (∀ t, t ∈ todos st' ↔ t ∈ todos st ∧ id t ≠ todo_id)
  ∧ (∀ l, l `sublist_of` todos st → Forall (λ t, id t ≠ todo_id) l →
          l `sublist_of` todos st')
  ∧ next_id st' = next_id st.
Proof.
  intros [(_ & [= ->] & _) | (_ & _ & ->)]%delete_todo_cases Hr;
    [discriminate Hr|]. simpl.
  split; [apply sublist_filter|]. split; [|split; [|done]].
  - intros t. rewrite list_elem_of_filter. tauto.
  - intros l. apply sublist_filter_max.
Qed.

Lemma delete_todo_keeps_others_witness :
  let old := [Todo 1 (lit "a"); Todo 2 (lit "b"); Todo 3 (lit "c")] in
  let new := [Todo 1 (lit "a"); Todo 3 (lit "c")] in
  new `sublist_of` old
  ∧ (∀ t, t ∈ new ↔ t ∈ old ∧ id t ≠ 2)
  ∧ (∀ l, l `sublist_of` old → Forall (λ t, id t ≠ 2) l → l `sublist_of` new)
  ∧ 4 = 4.
Proof.
  intros old new.
  apply (delete_todo_keeps_others 2 {| todos := old; next_id := 4 |}
           (Response (raw (lit "")) 204) {| todos := new; next_id := 4 |});
    reflexivity.
Defined.

(** ** The scenarios of the specification, run on the model *)

Example round_trip :
  (serve [POST_todos (JDict {[ lit "text" := JStr (lit "Buy milk") ]});
          GET_todos; DELETE_todo 1; GET_todos; DELETE_todo 1] initial).1.*2 =
  [Ok (Response (jsonify (todo_dict (Todo 1 (lit "Buy milk")))) 201);
   Ok (Response (jsonify (JList [todo_dict (Todo 1 (lit "Buy milk"))])) 200);
   Ok (Response (raw (lit "")) 204);
   Ok (Response (jsonify (JList [])) 200);
   Ok (Response (jsonify (error_dict "Todo not found")) 404)].
Proof. reflexivity. Qed.

Example same_text_twice :
  issued (serve [POST_todos (JDict {[ lit "text" := JStr (lit "x") ]});
                 POST_todos (JDict {[ lit "text" := JStr (lit "x") ]})]
            initial).1 = [1; 2].
Proof. reflexivity. Qed.

Example no_reuse_after_delete :
  issued (serve [POST_todos (JDict {[ lit "text" := JStr (lit "x") ]});
                 DELETE_todo 1;
                 POST_todos (JDict {[ lit "text" := JStr (lit "y") ]})]
            initial).1 = [1; 2].
Proof. reflexivity. Qed.

(** Bodies that are not objects: the first test of the handler is a
    truthiness test followed by [in], so a falsy body is answered 400 and
    a number raises. *)
Example create_todo_number :
  create_todo (JInt 5) initial = (Raise TypeError, initial)
  ∧ create_todo (JInt 0) initial =
      (Ok (Response (jsonify (error_dict "Missing text field")) 400), initial).
Proof. split; reflexivity. Qed.

(** ** More on [strip] *)

Section Strip.

Implicit Types (s : list N) (c : N).

Lemma lstrip_split s :
  ∃ pre, s = pre ++ lstrip s ∧ forallb isspace pre = true.
Proof.
  induction s as [|c s (pre & IH & Hpre)]; simpl.
  - by exists [].
  - destruct (isspace c) eqn:Ec.
    + exists (c :: pre). simpl. rewrite Ec, Hpre. split; [by f_equal|done].
    + by exists [].
Qed.

Lemma lstrip_head s c : head (lstrip s) = Some c → isspace c = false.
Proof.
  induction s as [|a s IH]; simpl; [done|].
  destruct (isspace a) eqn:Ea; [done|]. simpl. by intros [= <-].
Qed.

Lemma rstrip_split s :
  ∃ post, s = rstrip s ++ post ∧ forallb isspace post = true.
Proof.
  destruct (lstrip_split (reverse s)) as (pre & Hs & Hpre).
  exists (reverse pre). split; [|by rewrite forallb_reverse].
  unfold rstrip. rewrite <- reverse_app, <- Hs. by rewrite reverse_involutive.
Qed.

Lemma rstrip_last s c : last (rstrip s) = Some c → isspace c = false.
Proof. unfold rstrip. rewrite last_reverse. apply lstrip_head. Qed.

(** [strip] only takes whitespace away, and only at the two ends. *)
Lemma strip_split s :
  ∃ pre post, s = pre ++ strip s ++ post
    ∧ forallb isspace pre = true ∧ forallb isspace post = true.
Proof.
  destruct (lstrip_split s) as (pre & Hs & Hpre).
  destruct (rstrip_split (lstrip s)) as (post & Hl & Hpost).
  exists pre, post. unfold strip. by rewrite <- Hl.
Qed.

Lemma strip_trimmed s : trimmed (strip s).
Proof.
  split; [|apply rstrip_last].
  intros c Hc. destruct (rstrip_split (lstrip s)) as (post & Hl & _).
  apply (lstrip_head s). rewrite Hl. unfold strip in Hc.
  rewrite head_app. by rewrite Hc.
Qed.

Lemma strip_trimmed_id s : trimmed s → strip s = s.
Proof.
  intros [Hh Hl].
  assert (∀ x, (∀ c, head x = Some c → isspace c = false) → lstrip x = x) as Hid.
  { intros [|a x] Hx; simpl; [done|]. by rewrite (Hx a). }
  unfold strip, rstrip. rewrite (Hid s Hh).
  rewrite Hid; [apply reverse_involutive|].
  intros c. rewrite head_reverse. apply Hl.
Qed.

Lemma strip_idemp s : strip (strip s) = strip s.
Proof. apply strip_trimmed_id, strip_trimmed. Qed.

Lemma startswith_prefix s p : startswith s p = true ↔ p `prefix_of` s.
Proof.
  revert s. induction p as [|a p IH]; intros s.
  - split; [intros _; apply prefix_nil | by destruct s].
  - destruct s as [|b s]; simpl.
    + split; [done|]. by intros ?%prefix_nil_not.
    + rewrite andb_true_iff, N.eqb_eq, IH. split.
      * intros [-> ?]. by apply prefix_cons.
      * intros H. split; [by apply prefix_cons_inv_1 in H|].
        by apply prefix_cons_inv_2 in H.
Qed.

(** [occurs p s] is the substring test. *)
Lemma occurs_infix p s : occurs p s = true ↔ ∃ a b, s = a ++ p ++ b.
Proof.
  induction s as [|c s IH].
  - change (occurs p []) with (startswith [] p || false).
    rewrite orb_false_r, startswith_prefix. split.
    + intros [b ->]. by exists [], b.
    + intros (a & b & H). symmetry in H.
      apply app_eq_nil in H as [-> [-> ->]%app_eq_nil]. done.
  - change (occurs p (c :: s)) with (startswith (c :: s) p || occurs p s).
    rewrite orb_true_iff, startswith_prefix, IH. split.
    + intros [[b ->] | (a & b & ->)]; [by exists [], b | by exists (c :: a), b].
    + intros ([|x a] & b & H); simpl in H.
      * left. by exists b.
      * right. injection H as -> ->. by exists a, b.
Qed.

Lemma existsb_eq_str k (l : list json) :
  existsb (eq_str k) l = true ↔ JStr k ∈ l.
Proof.
  rewrite existsb_exists. split.
  - intros (x & Hx%list_elem_of_In & He). destruct x; try done.
    simpl in He. apply bool_decide_eq_true in He as ->. done.
  - intros H. exists (JStr k). split; [by apply list_elem_of_In|].
    simpl. by apply bool_decide_eq_true.
Qed.

End Strip.

(** ** Create on every kind of body *)

Section CreateBodies.

Implicit Types (st : state) (data : json).

Lemma create_todo_scalar data st :
  match data with JNull | JBool _ | JInt _ | JFloat _ => True | _ => False end →
  create_todo data st =
    (if truthy data then Raise TypeError else missing_400, st).
Proof.
  unfold create_todo, bindM, eval.
  destruct data as [|b|z|f| | |]; try done; intros _; cbn [contains bind].
  - by destruct b.
  - simpl. by destruct (z =? 0).
  - by destruct f.
Qed.

Lemma create_todo_list (l : list json) st :
  create_todo (JList l) st =
    (if existsb (eq_str (lit "text")) l then Raise TypeError else missing_400, st).
Proof.
  unfold create_todo, bindM, eval. destruct l as [|x l]; [done|].
  cbn [truthy length negb bool_decide contains bind getitem].
  rewrite bool_decide_eq_false_2 by done. cbn [negb].
  by destruct (existsb _ _).
Qed.

Lemma create_todo_str (s : list N) st :
  create_todo (JStr s) st =
    (if occurs (lit "text") s then Raise TypeError else missing_400, st).
Proof.
  unfold create_todo, bindM, eval. destruct s as [|x s]; [done|].
  cbn [truthy length negb bool_decide contains bind getitem].
  rewrite bool_decide_eq_false_2 by done. cbn [negb].
  by destruct (occurs _ _).
Qed.

Lemma create_todo_dict_missing (m : gmap (list N) json) st :
  m !! lit "text" = None → create_todo (JDict m) st = (missing_400, st).
Proof.
  intros Hm. unfold create_todo, bindM, eval.
  destruct (negb (truthy (JDict m))); [done|].
  cbn [contains bind]. rewrite bool_decide_eq_false_2; [done|].
  rewrite Hm. by intros [? ?].
Qed.

(** A body that is not an object is never stored: the answer is the 400
    of the first test or a [TypeError]. *)
Lemma create_todo_non_dict data st :
  (∀ m, data ≠ JDict m) →
  create_todo data st = (missing_400, st)
  ∨ create_todo data st = (Raise TypeError, st).
Proof.
  intros Hnd. destruct data as [|b|z|f|s|l|m].
  1-4: rewrite create_todo_scalar by done;
       match goal with |- context [truthy ?d] => destruct (truthy d) end; auto.
  - rewrite create_todo_str. destruct (occurs _ _); auto.
  - rewrite create_todo_list. destruct (existsb _ _); auto.
  - by destruct (Hnd m).
Qed.

Lemma create_todo_raise data st e st' :
  create_todo data st = (Raise e, st') →
  st' = st ∧ (e = TypeError ∨ e = AttributeError).
Proof.
  destruct data as [|b|z|f|s|l|m].
  1-6: (intros H;
        edestruct (create_todo_non_dict) as [E|E];
        [| rewrite E in H; discriminate H
         | rewrite E in H; injection H as <- <-; auto ]; done).
  destruct (m !! lit "text") as [v|] eqn:Hm.
  - rewrite (create_todo_dict _ _ _ Hm).
    destruct v; cbn [call_strip];
      try (intros [= <- <-]; auto).
    destruct (negb _); discriminate.
  - by rewrite (create_todo_dict_missing _ _ Hm).
Qed.

End CreateBodies.

(** X1: a Create answers 201 only on an object whose ['text'] is a string
    that is not empty once stripped; the answer and the new globals are
    then the ones of the success path. *)
Theorem create_todo_201_only_if data st r st' :
  create_todo data st = (Ok r, st') →
  status r = 201 →
  ∃ m s,
    data = JDict m
    ∧ m !! lit "text" = Some (JStr s)
    ∧ strip s ≠ []
    ∧ r = Response (jsonify (todo_dict (Todo (next_id st) (strip s)))) 201
    ∧ st' = {| todos := todos st ++ [Todo (next_id st) (strip s)];
               next_id := next_id st + 1 |}.
Proof.
  intros H Hr. destruct data as [|b|z|f|s|l|m].
  1-6: (match type of H with
        | create_todo ?d _ = _ =>
            destruct (create_todo_non_dict d st) as [E|E]; [done|..]
        end;
        rewrite E in H; unfold missing_400 in H;
        [injection H as <- <-; discriminate Hr | discriminate H]).
  destruct (m !! lit "text") as [v|] eqn:Hm.
  - rewrite (create_todo_dict _ _ _ Hm) in H.
    destruct v as [| | | |s| |]; try discriminate H. cbn [call_strip] in H.
    destruct (negb (truthy (JStr (strip s)))) eqn:E.
    + injection H as <- <-. discriminate Hr.
    + injection H as <- <-. exists m, s. repeat split; [done|].
      apply truthy_str. by apply negb_false_iff.
  - rewrite (create_todo_dict_missing _ _ Hm) in H. unfold missing_400 in H.
    injection H as <- <-. discriminate Hr.
Qed.

Lemma create_todo_201_only_if_witness :
  ∃ m s,
    JDict {[ lit "text" := JStr (lit " a ") ]} = JDict m
    ∧ m !! lit "text" = Some (JStr s)
    ∧ strip s ≠ []
    ∧ Response (jsonify (todo_dict (Todo 1 (lit "a")))) 201 =
        Response (jsonify (todo_dict (Todo 1 (strip s)))) 201
    ∧ {| todos := [Todo 1 (lit "a")]; next_id := 2 |} =
        {| todos := [] ++ [Todo 1 (strip s)]; next_id := 1 + 1 |}.
Proof.
  apply (create_todo_201_only_if
           (JDict {[ lit "text" := JStr (lit " a ") ]}) initial
           (Response (jsonify (todo_dict (Todo 1 (lit "a")))) 201)
           {| todos := [Todo 1 (lit "a")]; next_id := 2 |});
    reflexivity.
Defined.

(** X2: the text a successful Create stores is the submitted text with
    whitespace taken off its two ends and nothing else: the submitted
    string is whitespace, then the stored text, then whitespace, and the
    stored text neither starts nor ends with whitespace. *)
Theorem create_todo_stored_text m s st r st' :
  m !! lit "text" = Some (JStr s) →
  create_todo (JDict m) st = (Ok r, st') →
  status r = 201 →
  ∃ t pre post,
    last (todos st') = Some t
    ∧ s = pre ++ text t ++ post
    ∧ forallb isspace pre = true
    ∧ forallb isspace post = true
    ∧ trimmed (text t)
    ∧ text t ≠ [].
Proof.
  intros Hm H Hr.
  rewrite (create_todo_dict _ _ _ Hm) in H. cbn [call_strip] in H.
  destruct (negb (truthy (JStr (strip s)))) eqn:E.
  { injection H as <- <-. discriminate Hr. }
  injection H as <- <-.
  destruct (strip_split s) as (pre & post & Hs & Hpre & Hpost).
  exists (created st (strip s)), pre, post. cbn [todos text created].
  rewrite last_snoc. repeat split; try done.
  - by apply (strip_trimmed s).
  - by apply (strip_trimmed s).
  - apply truthy_str. by apply negb_false_iff.
Qed.

Lemma create_todo_stored_text_witness :
  ∃ t pre post,
    last [Todo 1 (lit "Buy  milk")] = Some t
    ∧ lit "  Buy  milk " = pre ++ text t ++ post
    ∧ forallb isspace pre = true
    ∧ forallb isspace post = true
    ∧ trimmed (text t)
    ∧ text t ≠ [].
Proof.
  apply (create_todo_stored_text
           {[ lit "text" := JStr (lit "  Buy  milk ") ]} (lit "  Buy  milk ")
           initial
           (Response (jsonify (todo_dict (Todo 1 (lit "Buy  milk")))) 201)
           {| todos := [Todo 1 (lit "Buy  milk")]; next_id := 2 |});
    reflexivity.
Defined.

(** X3: a body that is a JSON scalar.  [null], [false], [0] and [0.0] are
    falsy and are answered 400 "Missing text field"; [true] and every
    non-zero number pass the truthiness test and make ['text' in data]
    raise [TypeError].  The globals are untouched either way. *)
Theorem create_todo_scalar_body data st :
  match data with JNull | JBool _ | JInt _ | JFloat _ => True | _ => False end →
  (truthy data = false → create_todo data st = (missing_400, st))
  ∧ (truthy data = true → create_todo data st = (Raise TypeError, st)).
Proof.
  intros Hd. rewrite (create_todo_scalar _ _ Hd).
  destruct (truthy data); split; done.
Qed.

Lemma create_todo_scalar_body_witness :
  create_todo (JInt 0) initial = (missing_400, initial)
  ∧ create_todo (JInt 5) initial = (Raise TypeError, initial)
  ∧ create_todo (JBool true) initial = (Raise TypeError, initial)
  ∧ create_todo (JFloat (S754_zero true)) initial = (missing_400, initial).
Proof.
  split; [|split; [|split]].
  - apply (proj1 (create_todo_scalar_body (JInt 0) initial I)).
    reflexivity.
  - apply (proj2 (create_todo_scalar_body (JInt 5) initial I)).
    reflexivity.
  - apply (proj2 (create_todo_scalar_body (JBool true) initial I)).
    reflexivity.
  - apply (proj1 (create_todo_scalar_body (JFloat (S754_zero true)) initial I)).
    reflexivity.
Defined.

(** X4: a body that is a JSON array.  ['text' in data] is element
    membership there: an array that holds the string "text" passes the
    first test and [data['text']] raises [TypeError]; any other array
    (the empty one included) is answered 400 "Missing text field". *)
Theorem create_todo_list_body (l : list json) st :
  (JStr (lit "text") ∈ l → create_todo (JList l) st = (Raise TypeError, st))
  ∧ (JStr (lit "text") ∉ l → create_todo (JList l) st = (missing_400, st)).
Proof.
  rewrite create_todo_list.
  destruct (existsb (eq_str (lit "text")) l) eqn:E.
  - split; [done|]. intros Hn. by apply existsb_eq_str in E.
  - split; [|done]. intros Hin%existsb_eq_str. congruence.
Qed.

Lemma create_todo_list_body_witness :
  create_todo (JList [JInt 1; JStr (lit "text")]) initial
    = (Raise TypeError, initial)
  ∧ create_todo (JList [JStr (lit "texts")]) initial = (missing_400, initial).
Proof.
  split.
  - apply (create_todo_list_body [JInt 1; JStr (lit "text")] initial).
    apply list_elem_of_further, list_elem_of_here.
  - apply (create_todo_list_body [JStr (lit "texts")] initial).
    intros [=]%list_elem_of_singleton.
Defined.

(** X5: a body that is a JSON string.  ['text' in data] is the substring
    test there: a string in which "text" occurs passes the first test and
    [data['text']] raises [TypeError]; any other string (the empty one
    included) is answered 400 "Missing text field". *)
Theorem create_todo_str_body (s : list N) st :
  ((∃ a b, s = a ++ lit "text" ++ b) →
     create_todo (JStr s) st = (Raise TypeError, st))
  ∧ ((¬ ∃ a b, s = a ++ lit "text" ++ b) →
     create_todo (JStr s) st = (missing_400, st)).
Proof.
  rewrite create_todo_str.
  destruct (occurs (lit "text") s) eqn:E.
  - split; [done|]. intros Hn. by apply occurs_infix in E.
  - split; [|done]. intros Hin%occurs_infix. congruence.
Qed.

Lemma create_todo_str_body_witness :
  create_todo (JStr (lit "my text here")) initial = (Raise TypeError, initial).
Proof.
  apply (create_todo_str_body (lit "my text here") initial).
  exists (lit "my "), (lit " here"). reflexivity.
Defined.



(** ** The three kinds of step *)

Section Steps.

Implicit Types (st : state) (r : request) (rs : list request).

(** A request leaves the globals alone and hands out or removes no id, or
    it is a Create that stores a new trimmed text under [next_id], or it
    is a Delete of a stored id. *)
Lemma handle_step r st o st' :
  handle r st = (o, st') →
  (st' = st ∧ created_id (r, o) = None ∧ removed_id (r, o) = None)
  ∨ (∃ s, s ≠ [] ∧ trimmed s
       ∧ st' = {| todos := todos st ++ [created st s];
                  next_id := next_id st + 1 |}
       ∧ created_id (r, o) = Some (next_id st)
       ∧ removed_id (r, o) = None)
  ∨ (∃ t, t ∈ todos st
       ∧ st' = {| todos := filter (λ t', id t' ≠ id t) (todos st);
                  next_id := next_id st |}
       ∧ created_id (r, o) = None
       ∧ removed_id (r, o) = Some (id t)).
Proof.
  destruct r as [|data|todo_id| |h]; cbn [handle];
    [| | | | by intros [= <- <-]; left].
  - intros [= <- <-]. by left.
  - intros H. destruct o as [resp|e].
    + destruct (decide (status resp = 201)) as [Hr|Hr].
      * right; left.
        destruct data as [|b|z|f|s0|l|m].
        1-6: (match type of H with
              | create_todo ?d _ = _ =>
                  destruct (create_todo_non_dict d st) as [E|E]; [done|..]
              end;
              rewrite E in H; unfold missing_400 in H;
              [injection H as <- <-; discriminate Hr | discriminate H]).
        destruct (m !! lit "text") as [v|] eqn:Hm.
        -- rewrite (create_todo_dict _ _ _ Hm) in H.
           destruct v as [| | | |s0| |]; try discriminate H.
           cbn [call_strip] in H.
           destruct (negb (truthy (JStr (strip s0)))) eqn:E.
           { injection H as <- <-. discriminate Hr. }
           injection H as <- <-. exists (strip s0).
           split; [apply truthy_str; by apply negb_false_iff|].
           split; [apply strip_trimmed|]. split; [done|].
           split; [|done]. cbn [created_id status resp_body].
           rewrite bool_decide_eq_true_2 by done.
           by destruct (todo_dict_id (created st (strip s0))) as (m' & -> & ->).
        -- rewrite (create_todo_dict_missing _ _ Hm) in H.
           unfold missing_400 in H. injection H as <- <-. discriminate Hr.
      * left. apply create_todo_cases in H as [[-> _] | (s & _ & [= ->] & _)];
          [|done].
        split; [done|]. split; [|done]. cbn [created_id].
        by rewrite bool_decide_eq_false_2.
    + apply create_todo_raise in H as [-> _]. by left.
  - intros [(_ & -> & ->) | ((t & Hin & <-) & -> & ->)]%delete_todo_cases.
    + by left.
    + right; right. exists t. repeat split; done.
  - intros [= <- <-]. by left.
Qed.

Lemma fmap_filter_id (l : list todo) (i : Z) :
  id <$> filter (λ t, id t ≠ i) l = filter (λ j, j ≠ i) (id <$> l).
Proof.
  induction l as [|t l IH]; [done|]. cbn [fmap list_fmap].
  destruct (decide (id t = i)) as [E|E].
  - rewrite !filter_cons_False by (intros ?; done). done.
  - rewrite !filter_cons_True by done. cbn [fmap list_fmap]. by f_equal.
Qed.

Lemma filter_ext_in {A} (P Q : A → Prop) `{!∀ x, Decision (P x)}
    `{!∀ x, Decision (Q x)} (l : list A) :
  (∀ x, x ∈ l → P x ↔ Q x) → filter P l = filter Q l.
Proof.
  induction l as [|x l IH]; [done|]. intros HPQ.
  assert (filter P l = filter Q l) as IH'.
  { apply IH. intros y Hy. apply HPQ. by right. }
  destruct (decide (P x)) as [HP|HP].
  - rewrite !filter_cons_True; [by f_equal|by apply HPQ; [left|]|done].
  - rewrite !filter_cons_False; [done| |done].
    intros HQ. apply HP, HPQ; [left|done].
Qed.

Lemma inv_ids_below st : inv st → Forall (λ i, 1 ≤ i < next_id st) (id <$> todos st).
Proof.
  intros [_ Hb _ _]. apply Forall_fmap. eapply Forall_impl; [exact Hb|]. done.
Qed.

End Steps.

(** ** Sequences of requests: bookkeeping of ids *)

Section Bookkeeping.

Implicit Types (st : state) (r : request) (rs : list request).

Lemma serve_cons r rs st :
  serve (r :: rs) st =
    (((r, (handle r st).1) :: (serve rs (handle r st).2).1),
     (serve rs (handle r st).2).2).
Proof.
  cbn [serve]. destruct (handle r st) as [o st1]. cbn [fst snd].
  by destruct (serve rs st1) as [log st2].
Qed.

Lemma serve_trimmed rs st :
  Forall (λ t, trimmed (text t)) (todos st) →
  Forall (λ t, trimmed (text t)) (todos (serve rs st).2).
Proof.
  revert st. induction rs as [|r rs IH]; intros st Hst; [done|].
  rewrite serve_cons. cbn [snd]. apply IH.
  destruct (handle r st) as [o st1] eqn:Hh. cbn [snd].
  apply handle_step in Hh
    as [(-> & _) | [(s & _ & Hs & -> & _) | (t & _ & -> & _)]]; cbn [todos].
  - done.
  - apply Forall_app. split; [done|]. by apply Forall_singleton.
  - eapply Forall_sublist; [apply sublist_filter|done].
Qed.

Lemma serve_consecutive rs st :
  issued (serve rs st).1 =
    seqZ (next_id st) (next_id (serve rs st).2 - next_id st).
Proof.
  revert st. induction rs as [|r rs IH]; intros st.
  - simpl. by rewrite Z.sub_diag.
  - rewrite serve_cons. cbn [fst snd].
    destruct (handle r st) as [o st1] eqn:Hh. cbn [fst snd].
    unfold issued. cbn [omap list_omap]. fold (issued (serve rs st1).1).
    rewrite IH. apply handle_issue in Hh.
    destruct (serve rs st1) as [log st2] eqn:Hs. cbn [snd].
    apply serve_issued in Hs as (Hle & _ & _).
    destruct (created_id (r, o)) as [i|].
    + destruct Hh as [-> Hn]. rewrite Hn in *.
      rewrite (seqZ_cons (next_id st)) by lia. f_equal. f_equal; lia.
    + by rewrite Hh.
Qed.

Lemma serve_ids rs st :
  inv st →
  id <$> todos (serve rs st).2 =
    filter (λ i, i ∉ removed (serve rs st).1)
      ((id <$> todos st) ++ issued (serve rs st).1).
Proof.
  revert st. induction rs as [|r rs IH]; intros st Hinv.
  - simpl. rewrite app_nil_r. symmetry. apply filter_all.
    apply Forall_forall. intros i _. apply not_elem_of_nil.
  - rewrite serve_cons. cbn [fst snd].
    destruct (handle r st) as [o st1] eqn:Hh. cbn [fst snd].
    pose proof (handle_inv _ _ _ _ Hinv Hh) as Hinv1.
    rewrite (IH st1 Hinv1).
    unfold issued, removed. cbn [omap list_omap].
    fold (issued (serve rs st1).1) (removed (serve rs st1).1).
    apply handle_step in Hh
      as [(-> & -> & ->) | [(s & _ & _ & -> & -> & ->) | (t & Hin & -> & -> & ->)]].
    + done.
    + cbn [todos]. by rewrite fmap_app, <- app_assoc.
    + cbn [todos]. rewrite fmap_filter_id.
      match goal with
      | |- context [issued ?log] => set (I := issued log)
      end.
      assert (filter (λ j, j ≠ id t) I = I) as HI.
      { apply filter_all. subst I.
        destruct (serve rs _) as [log st2] eqn:Hs. cbn [fst].
        apply serve_issued in Hs as (_ & Hall & _). cbn [next_id] in Hall.
        destruct Hinv as [_ Hb _ _]. rewrite Forall_forall in Hb.
        specialize (Hb _ Hin).
        eapply Forall_impl; [exact Hall|]. simpl. intros; lia. }
      rewrite <- HI at 1. rewrite <- filter_app, list_filter_filter.
      apply filter_ext_in. intros j _. rewrite not_elem_of_cons. tauto.
Qed.

Lemma serve_length rs st :
  inv st →
  (length (todos (serve rs st).2) + length (removed (serve rs st).1)
   = length (todos st) + length (issued (serve rs st).1))%nat.
Proof.
  revert st. induction rs as [|r rs IH]; intros st Hinv.
  - simpl. lia.
  - rewrite serve_cons. cbn [fst snd].
    destruct (handle r st) as [o st1] eqn:Hh. cbn [fst snd].
    pose proof (handle_inv _ _ _ _ Hinv Hh) as Hinv1.
    specialize (IH st1 Hinv1).
    unfold issued, removed in *. cbn [omap list_omap].
    apply handle_step in Hh
      as [(-> & -> & ->) | [(s & _ & _ & -> & -> & ->) | (t & Hin & -> & -> & ->)]].
    + done.
    + cbn [todos length] in *. rewrite length_app in IH. simpl in IH. lia.
    + assert (length (filter (λ t', id t' ≠ id t) (todos st)) + 1
              = length (todos st))%nat as Hlen.
      { destruct (filter_sorted_split _ _ (inv_sorted _ Hinv) Hin)
          as (l1 & l2 & Hl & Hf & _).
        rewrite Hf, Hl, !length_app. simpl. lia. }
      cbn [todos length] in *. lia.
Qed.

Lemma serve_absent rs st i :
  i < next_id st →
  Forall (λ t, id t ≠ i) (todos st) →
  i < next_id (serve rs st).2
  ∧ Forall (λ t, id t ≠ i) (todos (serve rs st).2).
Proof.
  revert st. induction rs as [|r rs IH]; intros st Hlt Hall; [done|].
  rewrite serve_cons. cbn [snd].
  destruct (handle r st) as [o st1] eqn:Hh. cbn [snd].
  apply handle_step in Hh
    as [(-> & _) | [(s & _ & _ & -> & _) | (t & _ & -> & _)]]; apply IH;
    cbn [todos next_id]; try done; try lia.
  - apply Forall_app. split; [done|]. apply Forall_singleton. simpl. lia.
  - eapply Forall_sublist; [apply sublist_filter|done].
Qed.

(** Whatever the state, the globals after a Delete. *)
Lemma delete_todo_state todo_id st :
  (delete_todo todo_id st).2 =
    {| todos := filter (λ t, id t ≠ todo_id) (todos st);
       next_id := next_id st |}.
Proof.
  destruct (delete_todo todo_id st) as [o st'] eqn:H. cbn [snd].
  apply delete_todo_cases in H as [(Hall & _ & ->) | (_ & _ & ->)]; [|done].
  rewrite filter_all by done. by destruct st.
Qed.

End Bookkeeping.

(** ** More on the service *)

(** X7: in every state the service can reach, the stored items are in
    strictly increasing order of id (so the ids are pairwise distinct and
    list order is creation order), every id is at least 1 and below
    [next_id], and every stored text is non-empty with no whitespace at
    either end. *)
Theorem reachable_wellformed st :
  reachable st →
  StronglySorted Z.lt (id <$> todos st)
  ∧ NoDup (id <$> todos st)
  ∧ Forall (λ t, 1 ≤ id t < next_id st ∧ text t ≠ [] ∧ trimmed (text t))
      (todos st).
Proof.
  intros Hr. pose proof (reachable_inv _ Hr) as [Hs Hb Ht _].
  assert (StronglySorted Z.lt (id <$> todos st)) as Hs'.
  { eapply StronglySorted_fmap; [|exact Hs]. done. }
  split; [done|]. split; [by apply StronglySorted_lt_NoDup|].
  destruct Hr as [rs <-].
  pose proof (serve_trimmed rs initial (Forall_nil_2 _)) as Htr.
  rewrite Forall_forall in Hb, Ht, Htr. apply Forall_forall. auto.
Qed.

Lemma reachable_wellformed_witness :
  let st := {| todos := [Todo 1 (lit "a"); Todo 3 (lit "c")]; next_id := 4 |} in
  StronglySorted Z.lt (id <$> todos st)
  ∧ NoDup (id <$> todos st)
  ∧ Forall (λ t, 1 ≤ id t < next_id st ∧ text t ≠ [] ∧ trimmed (text t))
      (todos st).
Proof.
  apply (reachable_wellformed
           {| todos := [Todo 1 (lit "a"); Todo 3 (lit "c")]; next_id := 4 |}).
  exists [POST_todos (JDict {[ lit "text" := JStr (lit "a") ]});
          POST_todos (JDict {[ lit "text" := JStr (lit " b") ]});
          POST_todos (JDict {[ lit "text" := JStr (lit "c ") ]});
          DELETE_todo 2].
  reflexivity.
Defined.

(** X8: the ids come out without gaps: along every sequence of requests
    from the initial state, the k-th successful Create is answered id k,
    and [next_id] is always one more than the number of successful
    Creates so far. *)
Theorem issued_ids_consecutive (rs : list request) :
  issued (serve rs initial).1
    = seqZ 1 (Z.of_nat (length (issued (serve rs initial).1)))
  ∧ next_id (serve rs initial).2
    = 1 + Z.of_nat (length (issued (serve rs initial).1)).
Proof.
  pose proof (serve_consecutive rs initial) as H. cbn [initial next_id] in H.
  destruct (serve rs initial) as [log st] eqn:E. cbn [fst snd] in *.
  apply serve_issued in E as (Hle & _ & _). cbn [initial next_id] in Hle.
  assert (Z.of_nat (length (issued log)) = next_id st - 1) as Hlen.
  { rewrite H, length_seqZ. lia. }
  rewrite Hlen. split; [done | lia].
Qed.

(** X9: the stored ids are the issued ids that no Delete has taken away,
    in the order they were issued: after any sequence of requests from
    the initial state, the ids along [todos] are the ids of the 201
    answers, in order, minus those of the 204 answers. *)
Theorem stored_ids_issued_minus_removed (rs : list request) :
  id <$> todos (serve rs initial).2 =
    filter (λ i, i ∉ removed (serve rs initial).1)
      (issued (serve rs initial).1).
Proof. by rewrite (serve_ids rs initial inv_initial). Qed.

(** X10: the number of stored items is the number of Creates answered 201
    minus the number of Deletes answered 204. *)
Theorem todos_length_accounting (rs : list request) :
  (length (todos (serve rs initial).2)
   + length (removed (serve rs initial).1)
   = length (issued (serve rs initial).1))%nat.
Proof. by rewrite (serve_length rs initial inv_initial). Qed.

(** X11: Delete is not idempotent in its answer: in any state, once a
    Delete of an id has answered 204, the same Delete again answers 404
    and changes nothing. *)
Theorem delete_todo_twice todo_id st r st' :
  delete_todo todo_id st = (Ok r, st') →
  status r = 204 →
  delete_todo todo_id st' =
    (Ok (Response (jsonify (error_dict "Todo not found")) 404), st').
Proof.
  intros [(_ & [= ->] & _) | (_ & _ & ->)]%delete_todo_cases Hr;
    [discriminate Hr|].
  apply delete_todo_absent. cbn [todos].
  apply Forall_forall. by intros t [? _]%list_elem_of_filter.
Qed.

Lemma delete_todo_twice_witness :
  delete_todo 1 {| todos := [Todo 2 (lit "b")]; next_id := 3 |} =
    (Ok (Response (jsonify (error_dict "Todo not found")) 404),
     {| todos := [Todo 2 (lit "b")]; next_id := 3 |}).
Proof.
  apply (delete_todo_twice 1
           {| todos := [Todo 1 (lit "a"); Todo 2 (lit "b")]; next_id := 3 |}
           (Response (raw (lit "")) 204));
    reflexivity.
Defined.

(** X12: in a reachable state, a successful Create followed by a Delete of
    the id it returned puts [todos] back to what it was; only [next_id]
    keeps the increment. *)
Theorem create_then_delete data st r st1 :
  reachable st →
  create_todo data st = (Ok r, st1) →
  status r = 201 →
  delete_todo (next_id st) st1 =
    (Ok (Response (raw (lit "")) 204),
     {| todos := todos st; next_id := next_id st + 1 |}).
Proof.
  intros [_ Hb _ _]%reachable_inv H Hr.
  apply create_todo_cases in H as [[_ H400] | (s & _ & _ & ->)].
  { rewrite (H400 r eq_refl) in Hr. discriminate Hr. }
  rewrite (delete_todo_present _ _ (created st s)); cbn [todos next_id];
    [| apply elem_of_app; right; apply list_elem_of_here | done].
  rewrite filter_app, filter_cons_False by (intros ?; done).
  rewrite filter_nil, app_nil_r, filter_all; [done|].
  eapply Forall_impl; [exact Hb|]. simpl. intros; lia.
Qed.

Lemma create_then_delete_witness :
  delete_todo 2 {| todos := [Todo 1 (lit "a"); Todo 2 (lit "b")]; next_id := 3 |} =
    (Ok (Response (raw (lit "")) 204),
     {| todos := [Todo 1 (lit "a")]; next_id := 2 + 1 |}).
Proof.
  apply (create_then_delete
           (JDict {[ lit "text" := JStr (lit "b") ]})
           {| todos := [Todo 1 (lit "a")]; next_id := 2 |}
           (Response (jsonify (todo_dict (Todo 2 (lit "b")))) 201)
           {| todos := [Todo 1 (lit "a"); Todo 2 (lit "b")]; next_id := 3 |}).
  - exists [POST_todos (JDict {[ lit "text" := JStr (lit "a") ]})]. reflexivity.
  - reflexivity.
  - reflexivity.
Defined.

(** X13: in a reachable state, a Delete of an id that was never issued
    (below 1, or at or above [next_id]) answers 404 and changes nothing. *)
Theorem delete_todo_unissued todo_id st :
  reachable st →
  todo_id < 1 ∨ next_id st ≤ todo_id →
  delete_todo todo_id st =
    (Ok (Response (jsonify (error_dict "Todo not found")) 404), st).
Proof.
  intros [_ Hb _ _]%reachable_inv Hid. apply delete_todo_absent.
  eapply Forall_impl; [exact Hb|]. simpl. intros; lia.
Qed.

Lemma delete_todo_unissued_witness :
  let st := {| todos := [Todo 1 (lit "a"); Todo 2 (lit "b")]; next_id := 3 |} in
  delete_todo 4 st =
    (Ok (Response (jsonify (error_dict "Todo not found")) 404), st)
  ∧ delete_todo 0 st =
    (Ok (Response (jsonify (error_dict "Todo not found")) 404), st).
Proof.
  intros st.
  assert (reachable st) as Hst.
  { exists [POST_todos (JDict {[ lit "text" := JStr (lit "a") ]});
            POST_todos (JDict {[ lit "text" := JStr (lit "b") ]})].
    reflexivity. }
  split.
  - apply (delete_todo_unissued 4 st Hst). right. simpl. lia.
  - apply (delete_todo_unissued 0 st Hst). left. lia.
Defined.

(** X14: a deleted item never comes back: after a Delete of an id has
    answered 204 in a reachable state, whatever requests follow, no
    stored item has that id and a further Delete of it answers 404. *)
Theorem deleted_id_stays_deleted todo_id st r st1 (rs : list request) :
  reachable st →
  delete_todo todo_id st = (Ok r, st1) →
  status r = 204 →
  Forall (λ t, id t ≠ todo_id) (todos (serve rs st1).2)
  ∧ delete_todo todo_id (serve rs st1).2 =
      (Ok (Response (jsonify (error_dict "Todo not found")) 404),
       (serve rs st1).2).
Proof.
  intros [_ Hb _ _]%reachable_inv
         [(_ & [= ->] & _) | ((t & Hin & <-) & _ & ->)]%delete_todo_cases Hr;
    [discriminate Hr|].
  rewrite Forall_forall in Hb. specialize (Hb _ Hin).
  destruct (serve_absent rs
              {| todos := filter (λ t', id t' ≠ id t) (todos st);
                 next_id := next_id st |} (id t)) as [_ Hall].
  - simpl. lia.
  - cbn [todos]. apply Forall_forall. by intros t' [? _]%list_elem_of_filter.
  - split; [done|]. by apply delete_todo_absent.
Qed.

Lemma deleted_id_stays_deleted_witness :
  let rs := [POST_todos (JDict {[ lit "text" := JStr (lit "b") ]}); DELETE_todo 1] in
  Forall (λ t, id t ≠ 1) (todos (serve rs {| todos := []; next_id := 2 |}).2)
  ∧ delete_todo 1 (serve rs {| todos := []; next_id := 2 |}).2 =
      (Ok (Response (jsonify (error_dict "Todo not found")) 404),
       (serve rs {| todos := []; next_id := 2 |}).2).
Proof.
  intros rs.
  apply (deleted_id_stays_deleted 1
           {| todos := [Todo 1 (lit "a")]; next_id := 2 |}
           (Response (raw (lit "")) 204)
           {| todos := []; next_id := 2 |} rs).
  - exists [POST_todos (JDict {[ lit "text" := JStr (lit "a") ]})]. reflexivity.
  - reflexivity.
  - reflexivity.
Defined.

(** X15: the two GET routes only read: a sequence made of List and Info
    requests leaves [todos] and [next_id] as they were, and each of them
    is answered 200. *)
Theorem read_only_requests (rs : list request) st :
  Forall (λ r, read_only r = true) rs →
  (serve rs st).2 = st
  ∧ Forall (λ e, ∃ resp, e.2 = Ok resp ∧ status resp = 200) (serve rs st).1.
Proof.
  induction 1 as [|r rs Hr _ IH]; [by split|].
  rewrite serve_cons. cbn [fst snd].
  assert (∃ resp, handle r st = (Ok resp, st) ∧ status resp = 200)
    as (resp & -> & Hresp).
  { destruct r; try discriminate Hr; eexists; split; reflexivity. }
  cbn [fst snd]. destruct IH as [-> IH]. split; [done|].
  constructor; [|done]. by exists resp.
Qed.

Lemma read_only_requests_witness :
  let rs := [GET_todos; GET_root; GET_todos] in
  let st := {| todos := [Todo 1 (lit "a")]; next_id := 2 |} in
  (serve rs st).2 = st
  ∧ Forall (λ e, ∃ resp, e.2 = Ok resp ∧ status resp = 200) (serve rs st).1.
Proof.
  intros rs st. apply (read_only_requests rs st).
  repeat (apply Forall_cons_2; [reflexivity|]). apply Forall_nil_2.
Defined.

(** X16: two Deletes commute: in any state, deleting two ids in either
    order leaves the same [todos] and [next_id]. *)
Theorem delete_todo_commute (i j : Z) st :
  (serve [DELETE_todo i; DELETE_todo j] st).2
  = (serve [DELETE_todo j; DELETE_todo i] st).2.
Proof.
  rewrite !serve_cons. cbn [serve snd handle].
  rewrite !delete_todo_state. cbn [todos next_id]. f_equal.
  rewrite !list_filter_filter. apply filter_ext_in. tauto.
Qed.
